(** * hqm.circuits.flexiblecircuit: the FlexibleCircuit layer

    A shallow embedding of [src/hqm/circuits/flexiblecircuit.py]: the
  constructor [__init__], the weight counter [__calculate_weights] and
  the circuit function [circ]/[qnode], with the Python exceptions they
  raise and the queue of pennylane operations the circuit function
  builds. *)

From Stdlib Require Import String Ascii.
From stdpp Require Import gmap strings list sorting.

Open Scope string_scope.
Open Scope list_scope.
Open Scope nat_scope.
Set Warnings "-register-all".

(** ** Exceptions and the two monads of the model *)

(** The builtin exceptions this module can raise by itself; the argument
    is the offending name, key or attribute. *)
Inductive exn :=
  | NameError (name : string)
  | KeyError (key : string)
  | AttributeError (attr : string)
  | TypeError
  | IndexError
  | ValueError.

Definition class_name (e : exn) : string :=
  match e with
  | NameError _ => "NameError"
  | KeyError _ => "KeyError"
  | AttributeError _ => "AttributeError"
  | TypeError => "TypeError"
  | IndexError => "IndexError"
  | ValueError => "ValueError"
  end.

(** A Python expression either has a value or raises. *)
Inductive result (X : Type) :=
  | Ok (x : X)
  | Raise (e : exn).
Arguments Ok {X} x.
Arguments Raise {X} e.

#[global] Instance result_ret : MRet result := λ X x, Ok x.
#[global] Instance result_bind : MBind result := λ X Y f m,
  match m with
  | Ok x => f x
  | Raise e => Raise e
  end.

(** [r] fails with an exception of the class called [cls]. *)
Definition fails_with {X} (cls : string) (r : result X) : Prop :=
  ∃ e, r = Raise e ∧ class_name e = cls.

(** A circuit function runs against the queue of operations pennylane
    records: a computation takes the queue so far and answers the queue
    it leaves, with its value or its exception. *)
Definition tape (O X : Type) : Type := list O → list O * result X.

#[global] Instance tape_ret {O} : MRet (tape O) := λ X x q, (q, Ok x).
#[global] Instance tape_bind {O} : MBind (tape O) := λ X Y f m q,
  match m q with
  | (q', Ok x) => f x q'
  | (q', Raise e) => (q', Raise e)
  end.

(** An expression that queues nothing. *)
Definition lift {O X} (r : result X) : tape O X := λ q, (q, r).

(** Appending one operation to the queue. *)
Definition enqueue {O} (op : O) : tape O unit := λ q, (q ++ [op], Ok tt).

(** The [for] statement over a list, threading the local variables the
    body assigns. *)
Fixpoint for_in `{MBind M, MRet M} {X S} (xs : list X) (s : S) (body : S → X → M S) : M S :=
  match xs with
  | [] => mret s
  | x :: xs' => s' ← body s x; for_in xs' s' body
  end.

(** ** Python values held by a configuration *)

Section Values.
(** numpy arrays are kept abstract; see [NumPy] below. *)
Context {ndarray : Type}.

Inductive value :=
  | VNone
  | VBool (b : bool)
  | VInt (z : Z)
  | VStr (s : string)
  | VList (items : list value)
  | VArray (a : ndarray).
End Values.
Arguments value ndarray : clear implicits.

(** What the module uses of numpy, which is not part of the repository:
    the attribute [shape] of an array, its iteration, its subscription,
    its truth value, [x in a], the truth value of [a == x], and the
    function [np.shape]. *)
Class NumPy (ndarray : Type) := {
  nd_shape : ndarray → list nat;
  nd_iter : ndarray → result (list (value ndarray));
  nd_getitem : ndarray → nat → result (value ndarray);
  nd_bool : ndarray → result bool;
  nd_contains : ndarray → value ndarray → result bool;
  nd_eq_bool : ndarray → value ndarray → result bool;
  np_shape : value ndarray → result (list nat)
}.

Section Python.
Context `{NumPy ndarray}.
Abbreviation value := (value ndarray).

(** [d[key]] on a dict with string keys *)
Definition dict_getitem (d : gmap string value) (key : string) : result value :=
  match d !! key with
  | Some v => Ok v
  | None => Raise (KeyError key)
  end.

(** [t[i]] on a tuple *)
Definition tuple_getitem {X} (t : list X) (i : nat) : result X :=
  match t !! i with
  | Some x => Ok x
  | None => Raise IndexError
  end.

(** [v.shape] *)
Definition getattr_shape (v : value) : result (list nat) :=
  match v with
  | VArray a => Ok (nd_shape a)
  | _ => Raise (AttributeError "shape")
  end.

(** the characters of a string, each as a string of length one *)
Fixpoint chars (s : string) : list value :=
  match s with
  | EmptyString => []
  | String c s' => VStr (String c EmptyString) :: chars s'
  end.

(** [list(iter(v))] *)
Definition iterate (v : value) : result (list value) :=
  match v with
  | VStr s => Ok (chars s)
  | VList items => Ok items
  | VArray a => nd_iter a
  | VNone | VBool _ | VInt _ => Raise TypeError
  end.

(** [v[i]] for an index [i >= 0] *)
Definition getitem (v : value) (i : nat) : result value :=
  match v with
  | VStr s => tuple_getitem (chars s) i
  | VList items => tuple_getitem items i
  | VArray a => nd_getitem a i
  | VNone | VBool _ | VInt _ => Raise TypeError
  end.

(** [bool(v)], the test of an [if] *)
Definition truth (v : value) : result bool :=
  match v with
  | VNone => Ok false
  | VBool b => Ok b
  | VInt z => Ok (negb (Z.eqb z 0))
  | VStr s => Ok (negb (String.eqb s ""))
  | VList items => Ok (negb (Nat.eqb (length items) 0))
  | VArray a => nd_bool a
  end.

(** [bool(v == s)] for a string [s] *)
Definition eq_str (v : value) (s : string) : result bool :=
  match v with
  | VStr s' => Ok (String.eqb s' s)
  | VArray a => nd_eq_bool a (VStr s)
  | VNone | VBool _ | VInt _ | VList _ => Ok false
  end.

(** [s in items] on a list: the first equal item answers *)
Fixpoint list_contains (items : list value) (s : string) : result bool :=
  match items with
  | [] => Ok false
  | v :: items' => b ← eq_str v s; if b : bool then Ok true else list_contains items' s
  end.

(** [s in v] for a string [s]; on a string it is the substring test *)
Definition contains (s : string) (v : value) : result bool :=
  match v with
  | VStr s' => Ok (bool_decide (is_Some (index 0 s s')))
  | VList items => list_contains items s
  | VArray a => nd_contains a (VStr s)
  | VNone | VBool _ | VInt _ => Raise TypeError
  end.

(** [list(chain( * v))]: [v] is unpacked into the arguments of [chain],
    whose items are then listed one argument after the other. *)
Definition list_chain (v : value) : result (list value) :=
  args ← iterate v;
  rows ← mapM iterate args;
  Ok (concat rows).
End Python.

(** ** The weight counter *)

Section Counter.
Context `{NumPy ndarray}.
Abbreviation value := (value ndarray).

(** The body shared by the two loops: [if 'R' in el: ct += 1]. *)
Definition count_R (ct : nat) (el : value) : result nat :=
  b ← contains "R" el;
  Ok (if b : bool then ct + 1 else ct).

Definition __calculate_weights (config : gmap string value) : result nat :=
  let ct := 0 in
  els ← (dict_getitem config "V" ≫= list_chain);
  ct ← for_in els ct count_R;
  els ← (dict_getitem config "U" ≫= list_chain);
  ct ← for_in els ct count_R;
  Ok ct.
End Counter.

(** ** The circuit function *)

(** Operations as the circuit function builds them; [scalar] is the type
    of the entries of the input vector. *)
Inductive observable :=
  | PauliZ (wires : nat).

Inductive operation (scalar : Type) :=
  | AngleEmbedding (features : list scalar) (wires : list nat)
  | AmplitudeEmbedding (features : list scalar) (wires : list nat) (normalize : bool)
  | expval (op : observable).
Arguments AngleEmbedding {scalar} features wires.
Arguments AmplitudeEmbedding {scalar} features wires normalize.
Arguments expval {scalar} op.

Section Circuit.
Context `{NumPy ndarray}.
Abbreviation value := (value ndarray).
Context {scalar device : Type}.
(** pennylane checks the arguments of an embedding template when it is
    built (the length of the features against the wires) and raises
    [ValueError] when it refuses them; the check is the library's, so it
    is a parameter here. *)
Variable accepts : operation scalar → bool.

Definition template (op : operation scalar) : tape (operation scalar) unit :=
  λ q, if accepts op then enqueue op q else (q, Raise ValueError).

(** [# E component] *)
Definition E_component (encoding : string) (n_qubits : nat) (inputs : list scalar)
  : tape (operation scalar) unit :=
  (if decide (encoding = "angle")
   then template (AngleEmbedding inputs (seq 0 n_qubits)) else mret tt);;
  (if decide (encoding = "amplitude")
   then template (AmplitudeEmbedding inputs (seq 0 n_qubits) true) else mret tt).

(** [# V component]: both loop bodies are [pass]. *)
Definition V_component (config : gmap string value) : tape (operation scalar) unit :=
  V ← lift (dict_getitem config "V");
  rows ← lift (getattr_shape V ≫= λ shape, tuple_getitem shape 0);
  for_in (seq 0 rows) tt (λ _ i,
    cols ← lift (getattr_shape V ≫= λ shape, tuple_getitem shape 1);
    for_in (seq 0 cols) tt (λ _ j, mret tt)).

(** [# U Component]: both loop bodies are [pass]. *)
Definition U_component (config : gmap string value) : tape (operation scalar) unit :=
  U ← lift (dict_getitem config "U");
  rows ← lift (getattr_shape U ≫= λ shape, tuple_getitem shape 0);
  for_in (seq 0 rows) tt (λ _ i,
    cols ← lift (getattr_shape U ≫= λ shape, tuple_getitem shape 1);
    for_in (seq 0 cols) tt (λ _ j, mret tt)).

(** [# M component]: the loop threads the list [measurements]. *)
Definition M_component (n_qubits : nat) (config : gmap string value)
  : tape (operation scalar) (list (operation scalar)) :=
  let measurements := [] in
  for_in (seq 0 n_qubits) measurements (λ measurements i,
    b ← lift (dict_getitem config "M" ≫= λ M, getitem M i ≫= truth);
    if b : bool
    then enqueue (expval (PauliZ i));; mret (measurements ++ [expval (PauliZ i)])
    else mret measurements).

Definition qnode (dev : device) (n_qubits : nat) (config : gmap string value)
    (encoding : string) (inputs weights : list scalar)
  : tape (operation scalar) (list (operation scalar)) :=
  E_component encoding n_qubits inputs;;
  V_component config;;
  U_component config;;
  M_component n_qubits config.

Definition circ (dev : device) (n_qubits : nat) (config : gmap string value)
    (encoding : string)
  : list scalar → list scalar → tape (operation scalar) (list (operation scalar)) :=
  qnode dev n_qubits config encoding.
End Circuit.

(** ** The constructor *)

(** What a global name of the module is bound to. *)
Inductive binding :=
  | Imported (module name : string)
  | ClassDef (name : string)
  | ModuleAttr (name : string)
  | Builtin (name : string).

(** The names bound at module level: the attributes every module has,
    the six imports and the class statement. *)
Definition module_globals : list (string * binding) :=
  [ ("__name__", ModuleAttr "__name__"); ("__doc__", ModuleAttr "__doc__");
  ("__package__", ModuleAttr "__package__"); ("__loader__", ModuleAttr "__loader__");
  ("__spec__", ModuleAttr "__spec__"); ("__file__", ModuleAttr "__file__");
  ("__cached__", ModuleAttr "__cached__"); ("__builtins__", ModuleAttr "__builtins__");
  ("FunctionType", Imported "types" "FunctionType");
  ("chain", Imported "itertools" "chain");
  ("qml", Imported "" "pennylane");
  ("np", Imported "" "numpy");
  ("sys", Imported "" "sys");
  ("QuantumCircuit", Imported ".circuit" "QuantumCircuit");
  ("FlexibleCircuit", ClassDef "FlexibleCircuit") ].

(** The names of Python's [builtins] module: functions and types,
    constants, exceptions and warnings. *)
Definition builtins : list string :=
  [ "abs"; "aiter"; "all"; "anext"; "any"; "ascii"; "bin"; "bool"; "breakpoint";
  "bytearray"; "bytes"; "callable"; "chr"; "classmethod"; "compile"; "complex";
  "copyright"; "credits"; "delattr"; "dict"; "dir"; "divmod"; "enumerate";
  "eval"; "exec"; "exit"; "filter"; "float"; "format"; "frozenset"; "getattr";
  "globals"; "hasattr"; "hash"; "help"; "hex"; "id"; "input"; "int";
  "isinstance"; "issubclass"; "iter"; "len"; "license"; "list"; "locals"; "map";
  "max"; "memoryview"; "min"; "next"; "object"; "oct"; "open"; "ord"; "pow";
  "print"; "property"; "quit"; "range"; "repr"; "reversed"; "round"; "set";
  "setattr"; "slice"; "sorted"; "staticmethod"; "str"; "sum"; "super"; "tuple";
  "type"; "vars"; "zip"; "__import__"; "__build_class__"; "__debug__";
  "Ellipsis"; "NotImplemented"; "True"; "False"; "None";
  "ArithmeticError"; "AssertionError"; "AttributeError"; "BaseException";
  "BaseExceptionGroup"; "BlockingIOError"; "BrokenPipeError"; "BufferError";
  "BytesWarning"; "ChildProcessError"; "ConnectionAbortedError";
  "ConnectionError"; "ConnectionRefusedError"; "ConnectionResetError";
  "DeprecationWarning"; "EOFError"; "EncodingWarning"; "EnvironmentError";
  "Exception"; "ExceptionGroup"; "FileExistsError"; "FileNotFoundError";
  "FloatingPointError"; "FutureWarning"; "GeneratorExit"; "IOError";
  "ImportError"; "ImportWarning"; "IndentationError"; "IndexError";
  "InterruptedError"; "IsADirectoryError"; "KeyError"; "KeyboardInterrupt";
  "LookupError"; "MemoryError"; "ModuleNotFoundError"; "NameError";
  "NotADirectoryError"; "NotImplementedError"; "OSError"; "OverflowError";
  "PendingDeprecationWarning"; "PermissionError"; "ProcessLookupError";
  "PythonFinalizationError"; "RecursionError"; "ReferenceError";
  "ResourceWarning"; "RuntimeError"; "RuntimeWarning"; "StopAsyncIteration";
  "StopIteration"; "SyntaxError"; "SyntaxWarning"; "SystemError"; "SystemExit";
  "TabError"; "TimeoutError"; "TypeError"; "UnboundLocalError";
  "UnicodeDecodeError"; "UnicodeEncodeError"; "UnicodeError";
  "UnicodeTranslateError"; "UnicodeWarning"; "UserWarning"; "ValueError";
  "Warning"; "ZeroDivisionError" ].

(** Reading a name that the function neither takes as a parameter nor
    assigns: the module's globals, then the builtins, else [NameError]. *)
Definition load_global (name : string) : result binding :=
  match (list_to_map module_globals : gmap string binding) !! name with
  | Some b => Ok b
  | None => if bool_decide (name ∈ builtins) then Ok (Builtin name)
            else Raise (NameError name)
  end.

(** [raise(s)] with [s] a string: only exceptions can be raised, so the
    statement raises [TypeError] whatever the text. *)
Definition raise_str {X} (text : string) : result X := Raise TypeError.

(** The four checks at the head of [__init__], after the call of the
    superclass constructor. *)
Definition init_checks {ndarray} (encoding : string) (config : gmap string (value ndarray))
  : result unit :=
  (if bool_decide (encoding ∉ ["angle"; "amplitude"])
   then raise_str "encoding can be angle or amplitude, found " else Ok tt);;
  (if bool_decide ("F" ∉ dom config)
   then raise_str "Config does not contain configuration for circuit F component, found "
   else Ok tt);;
  (if bool_decide ("U" ∉ dom config)
   then raise_str "Config does not contain configuration for circuit U component, found "
   else Ok tt);;
  (if bool_decide ("M" ∉ dom config)
   then raise_str "Config does not contain configuration for circuit M component, found "
   else Ok tt).

(** The attributes [__init__] assigns. *)
Record FlexibleCircuit {ndarray scalar device : Type} := {
  config : gmap string (value ndarray);
  encoding : string;
  n_qubits : nat;
  weight_shape : gmap string nat;
  circuit : list scalar → list scalar → tape (operation scalar) (list (operation scalar));
  dev : device
}.
Arguments FlexibleCircuit : clear implicits.

Section Constructor.
Context `{NumPy ndarray}.
Abbreviation value := (value ndarray).
Context {scalar device : Type}.
Variable accepts : operation scalar → bool.
(** The constructor of the superclass [QuantumCircuit], whose module is
    not in the repository's sources here: it raises, or answers the
    device it keeps in [self.dev]. *)
Variable super_init : binding → binding → option device → result device.

Definition __init__ (config : gmap string value) (dev : option device) (encoding : string)
  : result (FlexibleCircuit ndarray scalar device) :=
  n_qubits ← load_global "n_qubits";
  n_layers ← load_global "n_layers";
  self_dev ← super_init n_qubits n_layers dev;
  init_checks encoding config;;
  n_qubits ← (U ← dict_getitem config "U"; shape ← np_shape U; tuple_getitem shape 0);
  ct ← __calculate_weights config;
  Ok {| config := config;
      encoding := encoding;
      n_qubits := n_qubits;
      weight_shape := {[ "weights" := ct ]};
      circuit := circ accepts self_dev n_qubits config encoding;
      dev := self_dev |}.
End Constructor.

(** ** Configurations used as examples *)

(** A grid of gate names as a nested Python list. *)
Definition grid {ndarray} (rows : list (list string)) : value ndarray :=
  VList ((λ row, VList (VStr <$> row)) <$> rows).

(** A measurement mask as a Python list of booleans. *)
Definition mask_list {ndarray} (mask : list bool) : value ndarray :=
  VList (VBool <$> mask).

(** The configuration of the constructor's docstring: 3 qubits, 2 layers,
    every qubit measured. *)
Definition docstring_config {ndarray} : gmap string (value ndarray) :=
  {[ "F" := grid [ ["H"; "CNOT-2"]; ["H"; "CNOT-3"]; ["H"; "CNOT-1"] ];
     "U" := grid [ ["RY"; "CNOT-2"; "RY"; "RY"; "CNOT-2"; "RY"];
                   ["RY"; "CNOT-3"; "RY"; "RY"; "CNOT-3"; "RY"];
                   ["RY"; "CNOT-1"; "RY"; "RY"; "CNOT-1"; "RY"] ];
     "M" := mask_list [true; true; true] ]}.

(** The docstring's configuration shape with a rotation in the fixed
    block, and an empty entry under the key the counter reads. *)
Definition rotation_in_F_config {ndarray} : gmap string (value ndarray) :=
  {[ "F" := grid [ ["RY"; "H"] ];
     "U" := grid [ ["RY"] ];
     "M" := mask_list [true];
     "V" := grid [] ]}.

(** The docstring's configuration with rows of unequal lengths in ['F'],
    two rows only in ['U'] and a mask of four entries. *)
Definition ragged_config {ndarray} : gmap string (value ndarray) :=
  {[ "F" := grid [ ["H"; "CNOT-2"]; ["H"]; [] ];
     "U" := grid [ ["RY"; "CNOT-2"; "RY"]; ["RY"] ];
     "M" := mask_list [true; true; true; false] ]}.

(** The docstring's configuration with entangling gates on qubit 0 that
    name qubit 0 itself, counted from 0 or from 1 as the docstring does,
    and a qubit that does not exist. *)
Definition bad_target_config {ndarray} : gmap string (value ndarray) :=
  {[ "F" := grid [ ["H"; "CNOT-0"]; ["H"; "CNOT-3"]; ["H"; "CNOT-1"] ];
     "U" := grid [ ["RY"; "CNOT-1"; "RY"]; ["RY"; "CNOT-7"; "RY"]; ["RY"; "CNOT-1"; "RY"] ];
     "M" := mask_list [true; true; true] ]}.

(** numpy without any array: configurations made of Python lists only.
    [list_shape] is [np.shape] on such values: a list of equally shaped
    items has their shape behind its own length, a ragged one is refused. *)
Fixpoint list_shape (v : value Empty_set) : result (list nat) :=
  match v with
  | VList items =>
    shapes ← (fix shapes_of (xs : list (value Empty_set)) : result (list (list nat)) :=
                match xs with
                | [] => Ok []
                | x :: xs' => s ← list_shape x; ss ← shapes_of xs'; Ok (s :: ss)
                end) items;
    match shapes with
    | [] => Ok [0]
    | s :: ss => if bool_decide (Forall (λ s', s' = s) ss)
                 then Ok (length items :: s) else Raise ValueError
    end
  | VArray a => match a with end
  | VNone | VBool _ | VInt _ | VStr _ => Ok []
  end.

#[global] Instance lists_only : NumPy Empty_set := {
  nd_shape a := match a with end;
  nd_iter a := match a with end;
  nd_getitem a := match a with end;
  nd_bool a := match a with end;
  nd_contains a := match a with end;
  nd_eq_bool a := match a with end;
  np_shape := list_shape
}.

(** A superclass constructor that keeps the device it is given, [tt]
    standing for the only device. *)
Definition keep_device (n_qubits n_layers : binding) (dev : option unit) : result unit :=
  Ok (default tt dev).

(** A library that accepts every embedding. *)
Definition accept_all {scalar} (op : operation scalar) : bool := true.

(** ** Reference for the measurement step *)

(** The qubits a mask selects among the first [n_qubits], in ascending
    order: the reference the measurement loop is compared with. *)
Definition selected (mask : list bool) (n_qubits : nat) : list nat :=
  filter (λ i, mask !! i = Some true) (seq 0 n_qubits).

(** ** Reference for the embedding step *)

(** The embedding an encoding stands for, over [n_qubits] qubits: the
    reference the embedding step is compared with. *)
Definition expected_embedding {scalar} (encoding : string) (n_qubits : nat)
    (inputs : list scalar) : option (operation scalar) :=
  if decide (encoding = "angle") then Some (AngleEmbedding inputs (seq 0 n_qubits))
  else if decide (encoding = "amplitude")
       then Some (AmplitudeEmbedding inputs (seq 0 n_qubits) true)
       else None.

(** ** What an embedding stands for *)

(** Modelled from the spec: the gates of the embedding step (spec 4.4,
    step 1), which pennylane, not a part of the repository, makes of the
    templates the circuit function calls: a rotation of one qubit by an
    angle, and one initialisation of the state of several qubits from a
    vector, normalised to a unit vector beforehand when [normalized] is
    set. *)
Inductive gate (scalar : Type) :=
  | Rotation (angle : scalar) (wire : nat)
  | StateInit (amplitudes : list scalar) (wires : list nat) (normalized : bool).
Arguments Rotation {scalar} angle wire.
Arguments StateInit {scalar} amplitudes wires normalized.

(** Modelled from the spec: what pennylane's templates, not a part of
    the repository, stand for (spec 4.4, step 1, and 3, EncodingSpec).
    An angle embedding is one rotation per feature, feature [i] being the
    angle on wire [i]: one rotation per qubit when there is one feature
    per wire, and the first wires only when the features are fewer. An
    amplitude embedding is a single initialisation of all its wires from
    the features, normalised when [normalize] is set. A measurement is no
    gate. *)
Definition gates_of {scalar} (op : operation scalar) : list (gate scalar) :=
  match op with
  | AngleEmbedding features wires => zip_with Rotation features wires
  | AmplitudeEmbedding features wires normalize => [StateInit features wires normalize]
  | expval _ => []
  end.

(** ** References for the weight counter *)

(** The letters of a token. *)
Fixpoint letters (token : string) : list Ascii.ascii :=
  match token with
  | EmptyString => []
  | String c token' => c :: letters token'
  end.

(** The tokens that hold the capital letter R somewhere. *)
Definition with_R (tokens : list string) : list string :=
  filter (λ token, "R"%char ∈ letters token) tokens.

(** The capital letters R of the tokens, one after the other. *)
Definition letters_R (tokens : list string) : list Ascii.ascii :=
  filter (λ c, c = "R"%char) (concat (letters <$> tokens)).

(** ** Reference for the loops over a block *)

(** What the two nested loops make of the shape of a block: the outer
    bound is [shape[0]], and [shape[1]] is read once per outer round. *)
Definition loops_outcome (shape : list nat) : result unit :=
  match shape with
  | [] => Raise IndexError
  | 0 :: _ => Ok tt
  | S _ :: [] => Raise IndexError
  | S _ :: _ :: _ => Ok tt
  end.

(** ** Tactics *)

(** Membership of a given string in a given list, and of a given key in
    the keys of a given dictionary, by evaluation. *)
Ltac in_list := by apply (bool_decide_unpack _).
Ltac has_key := apply elem_of_dom; eexists; vm_compute; reflexivity.

(** ** Name resolution in [__init__] *)

Lemma load_global_n_qubits : load_global "n_qubits" = Raise (NameError "n_qubits").
Proof. by vm_compute. Qed.

(** The first statement of [__init__] stops at the name [n_qubits]. *)
Lemma init_stops_at_n_qubits
    `{NumPy ndarray} {scalar device : Type} (accepts : operation scalar → bool)
    (super_init : binding → binding → option device → result device)
    (config : gmap string (value ndarray)) (dev : option device) (encoding : string) :
  __init__ accepts super_init config dev encoding = Raise (NameError "n_qubits").
Proof. unfold __init__. by rewrite load_global_n_qubits. Qed.

(** C9. Whatever the configuration, the device and the encoding, and
    whatever the superclass constructor would do, [__init__] raises
    [NameError] for [n_qubits] while it evaluates the arguments of the
    superclass call: the name is neither a parameter nor a global nor a
    builtin. The superclass constructor is not entered, none of the four
    checks runs and no instance is ever built. *)
Theorem init_raises_NameError
    `{NumPy ndarray} {scalar device : Type} (accepts : operation scalar → bool)
    (super_init : binding → binding → option device → result device)
    (config : gmap string (value ndarray)) (dev : option device) (encoding : string) :
  __init__ accepts super_init config dev encoding = Raise (NameError "n_qubits").
Proof. apply init_stops_at_n_qubits. Qed.

(** ** The checks of [__init__] *)

Lemma init_checks_unknown_encoding {ndarray} encoding (config : gmap string (value ndarray)) :
  encoding ∉ ["angle"; "amplitude"] → init_checks encoding config = Raise TypeError.
Proof.
  intros Henc. unfold init_checks.
  by rewrite (bool_decide_eq_true_2 (encoding ∉ _)).
Qed.

Lemma init_checks_known_encoding {ndarray} encoding (config : gmap string (value ndarray)) :
  encoding ∈ ["angle"; "amplitude"] →
  init_checks encoding config =
    if bool_decide ("F" ∈ dom config ∧ "U" ∈ dom config ∧ "M" ∈ dom config)
    then Ok tt else Raise TypeError.
Proof.
  intros Henc. unfold init_checks.
  repeat case_bool_decide; try done; exfalso; intuition.
Qed.

(** A configuration without one of the three keys does not pass the
    checks, yet what is raised is the [TypeError] of raising a string. *)
Lemma init_checks_missing_key {ndarray} encoding (config : gmap string (value ndarray)) :
  "F" ∉ dom config ∨ "U" ∉ dom config ∨ "M" ∉ dom config →
  init_checks encoding config = Raise TypeError.
Proof.
  intros Hmiss. destruct (decide (encoding ∈ ["angle"; "amplitude"])) as [Henc|Henc].
  - rewrite init_checks_known_encoding by done.
    rewrite bool_decide_eq_false_2; [done | intuition].
  - by apply init_checks_unknown_encoding.
Qed.

(** C4. On the docstring's configuration without its ['U'] entry the
    constructor does not report a missing block: it raises the
    [NameError] of its first statement, and the check of the key, taken
    by itself, raises [TypeError] because it raises a string. *)
Theorem init_missing_block
    `{NumPy ndarray} {scalar device : Type} (accepts : operation scalar → bool)
    (super_init : binding → binding → option device → result device)
    (dev : option device) :
  __init__ accepts super_init (delete "U" docstring_config) dev "angle"
    = Raise (NameError "n_qubits")
  ∧ init_checks "angle" (delete "U" (docstring_config (ndarray:=ndarray)))
    = Raise TypeError.
Proof.
  split; [apply init_stops_at_n_qubits |].
  apply init_checks_missing_key. right; left.
  rewrite elem_of_dom, lookup_delete_eq. by intros [??].
Qed.

(** C7. With the encoding ['basis'] on the docstring's configuration the
    constructor does not report an invalid encoding: it raises the
    [NameError] of its first statement, and the check of the encoding,
    taken by itself, raises [TypeError] because it raises a string. The
    two recognised encodings pass that check. *)
Theorem init_invalid_encoding
    `{NumPy ndarray} {scalar device : Type} (accepts : operation scalar → bool)
    (super_init : binding → binding → option device → result device)
    (dev : option device) :
  __init__ accepts super_init docstring_config dev "basis" = Raise (NameError "n_qubits")
  ∧ init_checks "basis" (docstring_config (ndarray:=ndarray)) = Raise TypeError
  ∧ init_checks "angle" (docstring_config (ndarray:=ndarray)) = Ok tt
  ∧ init_checks "amplitude" (docstring_config (ndarray:=ndarray)) = Ok tt.
Proof.
  split; [apply init_stops_at_n_qubits |].
  split; [apply init_checks_unknown_encoding; in_list |].
  split; (rewrite init_checks_known_encoding by in_list);
    (rewrite bool_decide_eq_true_2; [done | repeat split; has_key]).
Qed.

(** ** What the checks do not look at *)

(** C5, as amended. The checks of the constructor look at the encoding
    and at the presence of the three keys only: a configuration that has
    ['F'], ['U'] and ['M'] passes them with a recognised encoding,
    whatever the numbers of rows and the lengths of the rows. *)
Theorem init_checks_ignore_dimensions {ndarray} encoding
    (config : gmap string (value ndarray)) :
  encoding ∈ ["angle"; "amplitude"] →
  "F" ∈ dom config → "U" ∈ dom config → "M" ∈ dom config →
  init_checks encoding config = Ok tt.
Proof.
  intros Henc HF HU HM. rewrite init_checks_known_encoding by done.
  by rewrite bool_decide_eq_true_2.
Qed.

Lemma init_checks_ignore_dimensions_witness :
  init_checks "angle" (ragged_config (ndarray:=Empty_set)) = Ok tt.
Proof.
  apply init_checks_ignore_dimensions; [in_list | has_key ..].
Defined.

(** C5, the claim as stated fails: on a configuration whose blocks and
    mask disagree in their numbers of rows and whose ['F'] rows have
    unequal lengths, construction does not fail with a
    [DimensionMismatchError], and the checks themselves pass. *)
Lemma ragged_config_no_dimension_error :
  ¬ fails_with "DimensionMismatchError"
      (__init__ (scalar:=Z) accept_all keep_device ragged_config None "angle")
  ∧ init_checks "angle" (ragged_config (ndarray:=Empty_set)) = Ok tt.
Proof.
  split; [| by vm_compute].
  rewrite init_stops_at_n_qubits. by intros (e & [= <-] & Hcls).
Qed.

(** C6, as amended. The checks of the constructor never read a gate
    token: their outcome is the same for two configurations that have the
    same keys, whatever the tokens, entangling targets included. *)
Theorem init_checks_keys_only {ndarray} encoding
    (config config' : gmap string (value ndarray)) :
  dom config = dom config' →
  init_checks encoding config = init_checks encoding config'.
Proof. intros Hdom. unfold init_checks. by rewrite Hdom. Qed.

Lemma init_checks_keys_only_witness :
  init_checks "angle" (bad_target_config (ndarray:=Empty_set))
  = init_checks "angle" (docstring_config (ndarray:=Empty_set)).
Proof.
  apply init_checks_keys_only. unfold bad_target_config, docstring_config.
  by rewrite !dom_insert_L.
Defined.

(** C6, the claim as stated fails: with an entangling token on qubit 0
    that targets qubit 0 and one that targets a qubit out of range,
    construction does not fail with an [InvalidTargetError], and the
    checks themselves pass. *)
Lemma bad_target_no_target_error :
  ¬ fails_with "InvalidTargetError"
      (__init__ (scalar:=Z) accept_all keep_device bad_target_config None "angle")
  ∧ init_checks "angle" (bad_target_config (ndarray:=Empty_set)) = Ok tt.
Proof.
  split; [| by vm_compute].
  rewrite init_stops_at_n_qubits. by intros (e & [= <-] & Hcls).
Qed.

(** ** The weight counter on the documented configuration *)

Lemma calculate_weights_without_V `{NumPy ndarray} (config : gmap string (value ndarray)) :
  config !! "V" = None → __calculate_weights config = Raise (KeyError "V").
Proof. intros HV. unfold __calculate_weights, dict_getitem. by rewrite HV. Qed.

(** C2. On the docstring's configuration, which has 12 rotation tokens,
    the counter raises [KeyError] for ['V'] instead of answering 12; and
    where ['V'] is present the rotation token of the fixed block is not
    counted: the answer is 1 for the 2 rotation tokens of ['F'] and ['U']. *)
Theorem calculate_weights_reads_V `{NumPy ndarray} :
  __calculate_weights (docstring_config (ndarray:=ndarray)) = Raise (KeyError "V")
  ∧ __calculate_weights (rotation_in_F_config (ndarray:=ndarray)) = Ok 1.
Proof. split; by vm_compute. Qed.

(** ** The queue of the circuit function *)

Section Queue.
Context `{NumPy ndarray} {scalar device : Type}.
Variable accepts : operation scalar → bool.
Implicit Types (config : gmap string (value ndarray)) (q : list (operation scalar)).

Lemma tape_bind_Ok {X Y} (m : tape (operation scalar) X) (k : X → tape (operation scalar) Y)
    q q' x :
  m q = (q', Ok x) → (m ≫= k) q = k x q'.
Proof. intros Hm. unfold mbind, tape_bind. by rewrite Hm. Qed.

Lemma tape_bind_Raise {X Y} (m : tape (operation scalar) X)
    (k : X → tape (operation scalar) Y) q q' e :
  m q = (q', Raise e) → (m ≫= k) q = (q', Raise e).
Proof. intros Hm. unfold mbind, tape_bind. by rewrite Hm. Qed.

(** A loop whose body is [pass] leaves the queue as it is. *)
Lemma for_in_pass {X} (xs : list X) q :
  for_in (M:=tape (operation scalar)) xs tt (λ _ _, mret tt) q = (q, Ok tt).
Proof. induction xs as [|x xs IH]; [done|]. simpl. by erewrite tape_bind_Ok. Qed.

(** The two nested loops over a block: the queue is untouched, whether
    they complete or raise. *)
Lemma block_loops_queue (B : value ndarray) (rows : list nat) q :
  (for_in (M:=tape (operation scalar)) rows tt (λ _ i,
     cols ← lift (getattr_shape B ≫= λ shape, tuple_getitem shape 1);
     for_in (seq 0 cols) tt (λ _ j, mret tt)) q).1 = q.
Proof.
  induction rows as [|i rows IH]; [done|]. simpl.
  destruct (getattr_shape B ≫= λ shape, tuple_getitem shape 1) as [cols|e] eqn:Hcols.
  - rewrite (tape_bind_Ok _ _ q q tt); [apply IH|].
    rewrite (tape_bind_Ok _ _ q q cols); [apply for_in_pass | done].
  - rewrite (tape_bind_Raise _ _ q q e); [done|].
    by rewrite (tape_bind_Raise _ _ q q e).
Qed.

Lemma V_component_queue config q : (V_component (scalar:=scalar) config q).1 = q.
Proof.
  unfold V_component.
  destruct (dict_getitem config "V") as [V|e] eqn:HV;
    [rewrite (tape_bind_Ok _ _ q q V) by done
    | by rewrite (tape_bind_Raise _ _ q q e)].
  destruct (getattr_shape V ≫= λ shape, tuple_getitem shape 0) as [rows|e] eqn:Hrows;
    [rewrite (tape_bind_Ok _ _ q q rows) by done
    | by rewrite (tape_bind_Raise _ _ q q e)].
  apply block_loops_queue.
Qed.

Lemma U_component_queue config q : (U_component (scalar:=scalar) config q).1 = q.
Proof.
  unfold U_component.
  destruct (dict_getitem config "U") as [U|e] eqn:HU;
    [rewrite (tape_bind_Ok _ _ q q U) by done
    | by rewrite (tape_bind_Raise _ _ q q e)].
  destruct (getattr_shape U ≫= λ shape, tuple_getitem shape 0) as [rows|e] eqn:Hrows;
    [rewrite (tape_bind_Ok _ _ q q rows) by done
    | by rewrite (tape_bind_Raise _ _ q q e)].
  apply block_loops_queue.
Qed.

Lemma V_component_without_V config q :
  config !! "V" = None → V_component (scalar:=scalar) config q = (q, Raise (KeyError "V")).
Proof.
  intros HV. unfold V_component.
  rewrite (tape_bind_Raise _ _ q q (KeyError "V")); [done|].
  unfold lift, dict_getitem. by rewrite HV.
Qed.

Lemma qnode_without_V (dev : device) n_qubits config encoding inputs weights q emb :
  config !! "V" = None →
  E_component accepts encoding n_qubits inputs q = (emb, Ok tt) →
  qnode accepts dev n_qubits config encoding inputs weights q = (emb, Raise (KeyError "V")).
Proof.
  intros HV HE. unfold qnode. rewrite (tape_bind_Ok _ _ q emb tt) by done.
  rewrite (tape_bind_Raise _ _ emb emb (KeyError "V")); [done|].
  by apply V_component_without_V.
Qed.

(** What the embedding step queues. *)
Lemma E_component_angle n_qubits inputs q :
  accepts (AngleEmbedding inputs (seq 0 n_qubits)) = true →
  E_component accepts "angle" n_qubits inputs q
  = (q ++ [AngleEmbedding inputs (seq 0 n_qubits)], Ok tt).
Proof.
  intros Hacc. unfold E_component. simpl.
  erewrite tape_bind_Ok; [done|]. unfold template, enqueue. by rewrite Hacc.
Qed.

Lemma E_component_amplitude n_qubits inputs q :
  accepts (AmplitudeEmbedding inputs (seq 0 n_qubits) true) = true →
  E_component accepts "amplitude" n_qubits inputs q
  = (q ++ [AmplitudeEmbedding inputs (seq 0 n_qubits) true], Ok tt).
Proof.
  intros Hacc. unfold E_component. simpl.
  erewrite tape_bind_Ok; [|done]. unfold template, enqueue. by rewrite Hacc.
Qed.
End Queue.

(** C10. A configuration with exactly the keys ['F'], ['U'] and ['M']
    has no ['V']: the counter raises [KeyError] for ['V'] at its first
    lookup, before anything is counted, and the circuit function raises
    the same once the embedding step is done, its queue holding what
    that step left and nothing of a block or of the measurement. *)
Theorem missing_V_raises_KeyError
    `{NumPy ndarray} {scalar device : Type} (accepts : operation scalar → bool)
    (dev : device) (n_qubits : nat) (config : gmap string (value ndarray))
    (encoding : string) (inputs weights emb : list _) :
  dom config = {[ "F"; "U"; "M" ]} →
  E_component accepts encoding n_qubits inputs [] = (emb, Ok tt) →
  __calculate_weights config = Raise (KeyError "V")
  ∧ qnode accepts dev n_qubits config encoding inputs weights []
    = (emb, Raise (KeyError "V")).
Proof.
  intros Hdom HE.
  assert (HV : config !! "V" = None).
  { apply not_elem_of_dom. rewrite Hdom.
    rewrite !elem_of_union, !elem_of_singleton. by intros [[|]|]. }
  split; [by apply calculate_weights_without_V | by apply qnode_without_V].
Qed.

Lemma missing_V_raises_KeyError_witness :
  __calculate_weights (docstring_config (ndarray:=Empty_set)) = Raise (KeyError "V")
  ∧ qnode accept_all tt 3 (docstring_config (ndarray:=Empty_set)) "angle"
      [1; 2; 3]%Z [] []
    = ([AngleEmbedding [1; 2; 3]%Z [0; 1; 2]], Raise (KeyError "V")).
Proof.
  apply missing_V_raises_KeyError.
  - unfold docstring_config. rewrite !dom_insert_L, dom_singleton_L.
    by rewrite (assoc_L (∪)).
  - by vm_compute.
Defined.

(** C1. On the docstring's configuration the circuit function queues the
    embedding and raises [KeyError] for ['V']: none of the 6 tokens of
    ['F'] and of the 18 tokens of ['U'] becomes an operation. Nor could
    one: for every configuration the two block components, whose loop
    bodies are [pass], leave the queue exactly as they find it. *)
Theorem qnode_queues_no_block_operation
    `{NumPy ndarray} {scalar device : Type} (dev : device) (inputs weights : list scalar) :
  qnode accept_all dev 3 (docstring_config (ndarray:=ndarray)) "angle" inputs weights []
    = ([AngleEmbedding inputs [0; 1; 2]], Raise (KeyError "V"))
  ∧ ∀ (config : gmap string (value ndarray)) (q : list (operation scalar)),
      (V_component config q).1 = q ∧ (U_component config q).1 = q.
Proof.
  split; [by vm_compute |].
  intros config q. split; [apply V_component_queue | apply U_component_queue].
Qed.

(** ** The measurement step *)

Lemma selected_spec mask n_qubits i :
  i ∈ selected mask n_qubits ↔ i < n_qubits ∧ mask !! i = Some true.
Proof.
  unfold selected. rewrite list_elem_of_filter, elem_of_seq. split.
  - intros [Hi [_ Hlt]]. split; [lia | done].
  - intros [Hlt Hi]. split; [done | lia].
Qed.

Lemma selected_NoDup mask n_qubits : NoDup (selected mask n_qubits).
Proof. apply NoDup_filter, NoDup_seq. Qed.

Lemma seq_ascending a k : StronglySorted lt (seq a k).
Proof.
  revert a. induction k as [|k IH]; intros a; simpl; constructor; [apply IH|].
  apply Forall_forall. intros j Hj. apply elem_of_seq in Hj. lia.
Qed.

Lemma filter_ascending (P : nat → Prop) `{∀ i, Decision (P i)} (l : list nat) :
  StronglySorted lt l → StronglySorted lt (filter P l).
Proof.
  induction 1 as [|i l Hl IH Hi]; [constructor|].
  rewrite filter_cons. destruct (decide (P i)); [|done].
  constructor; [done|]. apply Forall_forall. intros j Hj.
  apply list_elem_of_filter in Hj as [_ Hj].
  rewrite Forall_forall in Hi. by apply Hi.
Qed.

Lemma selected_ascending mask n_qubits : StronglySorted lt (selected mask n_qubits).
Proof. apply filter_ascending, seq_ascending. Qed.

Lemma filter_agree {A} (P1 P2 : A → Prop)
    `{!∀ x, Decision (P1 x), !∀ x, Decision (P2 x)} (l : list A) :
  (∀ x, x ∈ l → P1 x ↔ P2 x) → filter P1 l = filter P2 l.
Proof.
  induction l as [|x l IH]; intros Hiff; [done|].
  rewrite !filter_cons, IH by (intros y Hy; apply Hiff; by right).
  destruct (decide (P1 x)) as [H1|H1].
  - rewrite decide_True; [done|]. apply Hiff; [by left | done].
  - rewrite decide_False; [done|]. intros H2. apply H1, Hiff; [by left | done].
Qed.

(** As many qubits are selected as the mask has true entries, when the
    mask has one entry per qubit. *)
Lemma selected_length mask :
  length (selected mask (length mask)) = length (filter (λ b, b = true) mask).
Proof.
  unfold selected. induction mask as [|b mask IH] using rev_ind; [done|].
  rewrite length_app, Nat.add_1_r, seq_S, !filter_app, !length_app.
  f_equal.
  - rewrite <- IH. f_equal. apply filter_agree.
    intros i Hi. apply elem_of_seq in Hi. by rewrite lookup_app_l by lia.
  - rewrite !filter_cons, !filter_nil. simpl.
    rewrite list_lookup_middle by done.
    destruct b; [rewrite !decide_True by done | rewrite !decide_False by done]; done.
Qed.

Section Measurement.
Context `{NumPy ndarray} {scalar : Type}.
Implicit Types (config : gmap string (value ndarray)) (q : list (operation scalar)).

(** The test of the loop on a mask that is a list of booleans. *)
Lemma mask_bit config mask i b :
  config !! "M" = Some (mask_list mask) → mask !! i = Some b →
  (dict_getitem config "M" ≫= λ M, getitem M i ≫= truth) = Ok b.
Proof.
  intros HM Hi. unfold dict_getitem. rewrite HM. simpl.
  unfold tuple_getitem. rewrite list_lookup_fmap, Hi. done.
Qed.

(** The loop from qubit [a] on, entered with the list [acc]. *)
Lemma M_loop config mask (k a : nat) (acc : list (operation scalar)) q :
  config !! "M" = Some (mask_list mask) → a + k ≤ length mask →
  for_in (M:=tape (operation scalar)) (seq a k) acc (λ measurements i,
    b ← lift (dict_getitem config "M" ≫= λ M, getitem M i ≫= truth);
    if b : bool
    then enqueue (expval (PauliZ i));; mret (measurements ++ [expval (PauliZ i)])
    else mret measurements) q
  = let new := (λ i, expval (PauliZ i)) <$> filter (λ i, mask !! i = Some true) (seq a k) in
    (q ++ new, Ok (acc ++ new)).
Proof.
  intros HM. revert a acc q. induction k as [|k IH]; intros a acc q Hlen; simpl.
  { by rewrite !app_nil_r. }
  destruct (lookup_lt_is_Some_2 mask a) as [b Hb]; [lia|].
  rewrite filter_cons.
  destruct b.
  - rewrite decide_True by done.
    rewrite (tape_bind_Ok _ _ q (q ++ [expval (PauliZ a)]) (acc ++ [expval (PauliZ a)])).
    + rewrite IH by lia. simpl. by rewrite <- !app_assoc.
    + rewrite (tape_bind_Ok _ _ q q true); [done|].
      unfold lift. by erewrite mask_bit.
  - rewrite decide_False by (rewrite Hb; done).
    rewrite (tape_bind_Ok _ _ q q acc).
    + by rewrite IH by lia.
    + rewrite (tape_bind_Ok _ _ q q false); [done|].
      unfold lift. by erewrite mask_bit.
Qed.

(** C3. With a mask that is a list of one boolean per qubit, the
    measurement step queues and answers the expectation value of
    [PauliZ] on exactly the qubits whose mask entry is true, each once,
    in ascending order; the results are as many as the true entries. *)
Theorem M_component_follows_mask config (mask : list bool) (n_qubits : nat) q :
  config !! "M" = Some (mask_list mask) → length mask = n_qubits →
  let measurements := (λ i, expval (PauliZ i)) <$> selected mask n_qubits in
  M_component n_qubits config q = (q ++ measurements, Ok measurements)
  ∧ (∀ i, i ∈ selected mask n_qubits ↔ i < n_qubits ∧ mask !! i = Some true)
  ∧ NoDup (selected mask n_qubits)
  ∧ StronglySorted lt (selected mask n_qubits)
  ∧ length measurements = length (filter (λ b, b = true) mask).
Proof.
  intros HM Hlen. simpl. split; [|split; [|split; [|split]]].
  - unfold M_component. by rewrite (M_loop config mask) by (done || lia).
  - intros i. apply selected_spec.
  - apply selected_NoDup.
  - apply selected_ascending.
  - rewrite length_fmap, <- Hlen. apply selected_length.
Qed.
End Measurement.

Lemma M_component_follows_mask_witness :
  M_component (scalar:=Z) 3
    (<["M" := mask_list [true; false; true]]> (docstring_config (ndarray:=Empty_set))) []
  = ([expval (PauliZ 0); expval (PauliZ 2)], Ok [expval (PauliZ 0); expval (PauliZ 2)]).
Proof.
  apply (M_component_follows_mask
           (<["M" := mask_list [true; false; true]]> docstring_config)
           [true; false; true] 3 []); reflexivity.
Defined.

(** ** The embedding step *)

Section Embedding.
Context `{NumPy ndarray} {scalar device : Type}.
Variable accepts : operation scalar → bool.
Implicit Types (config : gmap string (value ndarray)) (inputs weights : list scalar).

(** The circuit function never reads [weights]. *)
Lemma qnode_ignores_weights (dev : device) n_qubits config encoding inputs weights weights' :
  qnode accepts dev n_qubits config encoding inputs weights
  = qnode accepts dev n_qubits config encoding inputs weights'.
Proof. reflexivity. Qed.

(** The measurement step only appends to the queue. *)
Lemma M_loop_extends_queue config (qubits : list nat) (acc q : list (operation scalar)) :
  ∃ later r,
    for_in (M:=tape (operation scalar)) qubits acc (λ measurements i,
      b ← lift (dict_getitem config "M" ≫= λ M, getitem M i ≫= truth);
      if b : bool
      then enqueue (expval (PauliZ i));; mret (measurements ++ [expval (PauliZ i)])
      else mret measurements) q = (q ++ later, r).
Proof.
  revert q acc. induction qubits as [|i qubits IH]; intros q acc; simpl.
  { exists [], (Ok acc). by rewrite app_nil_r. }
  destruct (dict_getitem config "M" ≫= λ M, getitem M i ≫= truth) as [[]|e] eqn:Hb.
  - destruct (IH (q ++ [expval (PauliZ i)]) (acc ++ [expval (PauliZ i)]))
      as (later & r & Hrest).
    exists (expval (PauliZ i) :: later), r.
    rewrite (tape_bind_Ok _ _ q (q ++ [expval (PauliZ i)]) (acc ++ [expval (PauliZ i)])).
    + rewrite Hrest. by rewrite <- app_assoc.
    + by rewrite (tape_bind_Ok _ _ q q true).
  - destruct (IH q acc) as (later & r & Hrest). exists later, r.
    rewrite (tape_bind_Ok _ _ q q acc); [done|].
    by rewrite (tape_bind_Ok _ _ q q false).
  - exists [], (Raise e). rewrite app_nil_r.
    rewrite (tape_bind_Raise _ _ q q e); [done|].
    by rewrite (tape_bind_Raise _ _ q q e).
Qed.

Lemma M_component_extends_queue n_qubits config (q : list (operation scalar)) :
  ∃ later r, M_component n_qubits config q = (q ++ later, r).
Proof. unfold M_component. apply M_loop_extends_queue. Qed.

(** The queue a run of the circuit function leaves starts with what the
    embedding step queued. *)
Lemma qnode_starts_with_embedding (dev : device) n_qubits config encoding inputs weights emb :
  E_component accepts encoding n_qubits inputs [] = (emb, Ok tt) →
  ∃ later r,
    qnode accepts dev n_qubits config encoding inputs weights [] = (emb ++ later, r).
Proof.
  intros HE. unfold qnode. rewrite (tape_bind_Ok _ _ [] emb tt) by done.
  pose proof (V_component_queue (scalar:=scalar) config emb) as HV.
  destruct (V_component config emb) as [qV [[]|e]] eqn:HVc; simpl in HV; subst qV.
  2:{ exists [], (Raise e). rewrite app_nil_r.
      by rewrite (tape_bind_Raise _ _ emb emb e). }
  rewrite (tape_bind_Ok _ _ emb emb tt) by done.
  pose proof (U_component_queue (scalar:=scalar) config emb) as HU.
  destruct (U_component config emb) as [qU [[]|e]] eqn:HUc; simpl in HU; subst qU.
  2:{ exists [], (Raise e). rewrite app_nil_r.
      by rewrite (tape_bind_Raise _ _ emb emb e). }
  rewrite (tape_bind_Ok _ _ emb emb tt) by done.
  apply M_component_extends_queue.
Qed.

(** What the measurement loop queues is what it adds to its list. *)
Lemma M_loop_completed config (qubits : list nat) (acc q q' ms : list (operation scalar)) :
  for_in (M:=tape (operation scalar)) qubits acc (λ measurements i,
    b ← lift (dict_getitem config "M" ≫= λ M, getitem M i ≫= truth);
    if b : bool
    then enqueue (expval (PauliZ i));; mret (measurements ++ [expval (PauliZ i)])
    else mret measurements) q = (q', Ok ms) →
  ∃ new, ms = acc ++ new ∧ q' = q ++ new.
Proof.
  revert q acc. induction qubits as [|i qubits IH]; intros q acc; simpl.
  { intros [= <- <-]. exists []. by rewrite !app_nil_r. }
  destruct (dict_getitem config "M" ≫= λ M, getitem M i ≫= truth) as [[]|e] eqn:Hb.
  - rewrite (tape_bind_Ok _ _ q (q ++ [expval (PauliZ i)]) (acc ++ [expval (PauliZ i)]))
      by (by rewrite (tape_bind_Ok _ _ q q true)).
    intros (new & -> & ->)%IH. exists (expval (PauliZ i) :: new).
    by rewrite <- !app_assoc.
  - rewrite (tape_bind_Ok _ _ q q acc) by (by rewrite (tape_bind_Ok _ _ q q false)).
    apply IH.
  - rewrite (tape_bind_Raise _ _ q q e) by (by rewrite (tape_bind_Raise _ _ q q e)).
    done.
Qed.

(** A run that completes has queued the embedding and the measurements
    it returns, and nothing between them. *)
Lemma qnode_completed_queue (dev : device) n_qubits config encoding inputs weights
    emb q' ms :
  E_component accepts encoding n_qubits inputs [] = (emb, Ok tt) →
  qnode accepts dev n_qubits config encoding inputs weights [] = (q', Ok ms) →
  q' = emb ++ ms.
Proof.
  intros HE. unfold qnode. rewrite (tape_bind_Ok _ _ [] emb tt) by done.
  pose proof (V_component_queue (scalar:=scalar) config emb) as HV.
  destruct (V_component config emb) as [qV [[]|e]] eqn:HVc; simpl in HV; subst qV.
  2:{ by rewrite (tape_bind_Raise _ _ emb emb e). }
  rewrite (tape_bind_Ok _ _ emb emb tt) by done.
  pose proof (U_component_queue (scalar:=scalar) config emb) as HU.
  destruct (U_component config emb) as [qU [[]|e]] eqn:HUc; simpl in HU; subst qU.
  2:{ by rewrite (tape_bind_Raise _ _ emb emb e). }
  rewrite (tape_bind_Ok _ _ emb emb tt) by done.
  unfold M_component. by intros (new & -> & ->)%M_loop_completed.
Qed.

(** Once the embedding and the two block components are through, the
    circuit function answers what the measurement step answers. *)
Lemma qnode_returns_measurements (dev : device) n_qubits config encoding inputs weights
    q emb :
  E_component accepts encoding n_qubits inputs q = (emb, Ok tt) →
  V_component (scalar:=scalar) config emb = (emb, Ok tt) →
  U_component (scalar:=scalar) config emb = (emb, Ok tt) →
  qnode accepts dev n_qubits config encoding inputs weights q
  = M_component n_qubits config emb.
Proof.
  intros HE HV HU. unfold qnode.
  rewrite (tape_bind_Ok _ _ q emb tt) by done.
  rewrite (tape_bind_Ok _ _ emb emb tt) by done.
  by rewrite (tape_bind_Ok _ _ emb emb tt).
Qed.

Lemma E_component_expected encoding n_qubits inputs op q :
  expected_embedding encoding n_qubits inputs = Some op → accepts op = true →
  E_component accepts encoding n_qubits inputs q = (q ++ [op], Ok tt).
Proof.
  unfold expected_embedding. intros Hop Hacc.
  destruct (decide (encoding = "angle")) as [->|Hangle].
  { injection Hop as <-. by apply E_component_angle. }
  destruct (decide (encoding = "amplitude")) as [->|Hamplitude]; [|done].
  injection Hop as <-. by apply E_component_amplitude.
Qed.

(** What a completed embedding step has queued: the one template of the
    encoding. *)
Lemma E_component_completed encoding n_qubits inputs emb :
  encoding ∈ ["angle"; "amplitude"] →
  E_component accepts encoding n_qubits inputs [] = (emb, Ok tt) →
  emb = [if decide (encoding = "angle") then AngleEmbedding inputs (seq 0 n_qubits)
         else AmplitudeEmbedding inputs (seq 0 n_qubits) true].
Proof.
  intros Hin HE. apply elem_of_cons in Hin as [->|Hin].
  - destruct (accepts (AngleEmbedding inputs (seq 0 n_qubits))) eqn:Hacc.
    + rewrite E_component_angle in HE by done. by injection HE as <-.
    + unfold E_component in HE. simpl in HE.
      rewrite (tape_bind_Raise _ _ [] [] ValueError) in HE; [done|].
      unfold template. by rewrite Hacc.
  - apply list_elem_of_singleton in Hin as ->.
    destruct (accepts (AmplitudeEmbedding inputs (seq 0 n_qubits) true)) eqn:Hacc.
    + rewrite E_component_amplitude in HE by done. by injection HE as <-.
    + unfold E_component in HE. simpl in HE.
      rewrite (tape_bind_Ok _ _ [] [] tt) in HE by done.
      unfold template in HE. by rewrite Hacc in HE.
Qed.

(** The rotations of an angle embedding over all the qubits, with one
    input per qubit: qubit [i] is turned by [inputs[i]]. *)
Lemma angle_rotations (inputs : list scalar) (n_qubits : nat) :
  length inputs = n_qubits →
  Forall2 (λ g i, ∃ x, inputs !! i = Some x ∧ g = Rotation x i)
    (zip_with Rotation inputs (seq 0 n_qubits)) (seq 0 n_qubits).
Proof.
  intros Hlen. apply Forall2_same_length_lookup_2.
  { rewrite length_zip_with, length_seq. lia. }
  intros i g j Hg Hj. apply lookup_zip_with_Some in Hg as (x & w & -> & Hx & Hw).
  assert (w = j) as -> by congruence.
  apply lookup_seq in Hj as [-> _]. by exists x.
Qed.

(** C8. For a recognised encoding, with one input per qubit when it is
    ['angle'], and an embedding the library accepts: whatever the
    configuration and the weights, the queue of a run starts with what
    the embedding step queued, which is fixed by the encoding, the inputs
    and the number of qubits, and no weight is read. With ['angle'] it
    stands for exactly one rotation per qubit [i], in the order of the
    qubits, by the angle [inputs[i]]; with ['amplitude'] for a single
    initialisation of the state of all the qubits from the inputs,
    normalised. *)
Theorem embedding_runs_first (dev : device) n_qubits config encoding inputs weights emb :
  encoding ∈ ["angle"; "amplitude"] →
  (encoding = "angle" → length inputs = n_qubits) →
  E_component accepts encoding n_qubits inputs [] = (emb, Ok tt) →
  (∀ config' weights', ∃ later r,
     qnode accepts dev n_qubits config' encoding inputs weights' [] = (emb ++ later, r))
  ∧ (∀ weights', qnode accepts dev n_qubits config encoding inputs weights'
                 = qnode accepts dev n_qubits config encoding inputs weights)
  ∧ if decide (encoding = "angle")
    then Forall2 (λ g i, ∃ x, inputs !! i = Some x ∧ g = Rotation x i)
           (concat (gates_of <$> emb)) (seq 0 n_qubits)
    else concat (gates_of <$> emb) = [StateInit inputs (seq 0 n_qubits) true].
Proof.
  intros Hin Hlen HE. split; [|split].
  - intros config' weights'.
    by apply (qnode_starts_with_embedding dev n_qubits config' encoding inputs weights' emb).
  - intros weights'. apply qnode_ignores_weights.
  - rewrite (E_component_completed encoding n_qubits inputs emb) by done.
    destruct (decide (encoding = "angle")) as [Hangle|Hangle]; [|done].
    cbn [fmap list_fmap concat gates_of]. rewrite app_nil_r.
    by apply angle_rotations, Hlen.
Qed.
End Embedding.

Lemma embedding_runs_first_witness :
  Forall2 (λ g i, ∃ x, [1; 2; 3]%Z !! i = Some x ∧ g = Rotation x i)
    [Rotation 1%Z 0; Rotation 2%Z 1; Rotation 3%Z 2] [0; 1; 2].
Proof.
  destruct (embedding_runs_first (ndarray:=Empty_set) accept_all tt 3 docstring_config
              "angle" [1; 2; 3]%Z [] [AngleEmbedding [1; 2; 3]%Z [0; 1; 2]])
    as (_ & _ & Hgates); [in_list | by intros _ | reflexivity | exact Hgates].
Defined.

(** ** The weight counter on blocks of Python lists *)

Section CounterOnLists.
Context `{NumPy ndarray}.
Implicit Types (config : gmap string (value ndarray)) (tokens : list string).

(** The substring test for ['R'] on a token asks for the letter R. *)
Lemma index_R_cons (c : ascii) (token : string) :
  index 0 "R" (String c token)
  = if ascii_dec "R" c then Some 0 else S <$> index 0 "R" token.
Proof.
  cbn -[ascii_dec]. destruct (ascii_dec "R" c); [by destruct token|].
  by destruct (index 0 "R" token).
Qed.

Lemma index_R_letters (token : string) :
  is_Some (index 0 "R" token) ↔ "R"%char ∈ letters token.
Proof.
  induction token as [|c token IH].
  { split; [by intros [? [=]] | by intros ?%elem_of_nil]. }
  rewrite index_R_cons. cbn [letters]. rewrite elem_of_cons.
  destruct (ascii_dec "R" c) as [<-|Hc].
  { split; [by left | by eexists]. }
  rewrite <- IH, fmap_is_Some. split; [by right | by intros [?|?]].
Qed.

Lemma contains_R_token (token : string) :
  contains "R" (VStr token : value ndarray)
  = Ok (bool_decide ("R"%char ∈ letters token)).
Proof. simpl. f_equal. apply bool_decide_ext, index_R_letters. Qed.

Lemma for_in_cons {X S} (x : X) (xs : list X) (s : S) (body : S → X → result S) :
  for_in (x :: xs) s body = (s' ← body s x; for_in xs s' body).
Proof. done. Qed.

Lemma count_R_token (token : string) (ct : nat) :
  count_R ct (VStr token : value ndarray)
  = Ok (if bool_decide ("R"%char ∈ letters token) then ct + 1 else ct).
Proof. unfold count_R. by rewrite contains_R_token. Qed.

(** One loop of the counter over string tokens. *)
Lemma count_R_tokens tokens (ct : nat) :
  for_in ((VStr <$> tokens) : list (value ndarray)) ct count_R
  = Ok (ct + length (with_R tokens)).
Proof.
  revert ct. induction tokens as [|token tokens IH]; intros ct.
  { simpl. by rewrite Nat.add_0_r. }
  rewrite fmap_cons, for_in_cons, count_R_token.
  unfold with_R. rewrite filter_cons. case_bool_decide as Htoken.
  - rewrite decide_True by done. cbn [mbind result_bind]. rewrite IH.
    unfold with_R. cbn [length]. f_equal. lia.
  - rewrite decide_False by done. apply IH.
Qed.

(** [chain] over a nested list lists the tokens row after row. *)
Lemma list_chain_grid (rows : list (list string)) :
  list_chain (grid rows : value ndarray) = Ok (VStr <$> concat rows).
Proof.
  unfold list_chain, grid. cbn [iterate mbind result_bind].
  set (m := mapM _ _).
  assert (Hrows : m = Ok (fmap (M:=list) (VStr (ndarray:=ndarray)) <$> rows)).
  { subst m. induction rows as [|row rows IH]; [done|].
    rewrite !fmap_cons. cbn. cbn in IH. by rewrite IH. }
  rewrite Hrows. clear m Hrows. cbn [mbind result_bind]. f_equal.
  induction rows as [|row rows IH]; [done|].
  rewrite fmap_cons. cbn [concat]. rewrite fmap_app. by f_equal.
Qed.

(** [chain] over a flat list of strings lists their letters. *)
Lemma list_chain_flat tokens :
  list_chain (VList (VStr <$> tokens) : value ndarray)
  = Ok (concat ((chars (ndarray:=ndarray)) <$> tokens)).
Proof.
  unfold list_chain. cbn [iterate mbind result_bind].
  set (m := mapM _ _).
  assert (Hrows : m = Ok (chars (ndarray:=ndarray) <$> tokens)).
  { subst m. induction tokens as [|token tokens IH]; [done|].
    rewrite !fmap_cons. cbn. cbn in IH. by rewrite IH. }
  by rewrite Hrows.
Qed.

Lemma count_R_char (c : ascii) (ct : nat) :
  count_R ct (VStr (String c EmptyString) : value ndarray)
  = Ok (if bool_decide (c = "R"%char) then ct + 1 else ct).
Proof.
  rewrite count_R_token.
  rewrite (bool_decide_ext ("R"%char ∈ letters (String c "")) (c = "R"%char)); [done|].
  cbn [letters]. rewrite list_elem_of_singleton. split; by intros ->.
Qed.

(** One loop of the counter over the letters of a token, and of tokens. *)
Lemma count_R_chars (token : string) (ct : nat) :
  for_in (chars (ndarray:=ndarray) token) ct count_R
  = Ok (ct + length (filter (λ c, c = "R"%char) (letters token))).
Proof.
  revert ct. induction token as [|c token IH]; intros ct.
  { simpl. by rewrite Nat.add_0_r. }
  cbn [chars letters]. rewrite for_in_cons, count_R_char.
  rewrite filter_cons. case_bool_decide as Hc.
  - rewrite decide_True by done. cbn [mbind result_bind]. rewrite IH.
    cbn [length]. f_equal. lia.
  - rewrite decide_False by done. apply IH.
Qed.

Lemma for_in_app {X S} (xs ys : list X) (s : S) (body : S → X → result S) :
  for_in (xs ++ ys) s body = (s' ← for_in xs s body; for_in ys s' body).
Proof.
  revert s. induction xs as [|x xs IH]; intros s; [done|]. simpl.
  destruct (body s x) as [s'|e]; [apply IH | done].
Qed.

Lemma count_R_letters tokens (ct : nat) :
  for_in (concat ((chars (ndarray:=ndarray)) <$> tokens)) ct count_R
  = Ok (ct + length (letters_R tokens)).
Proof.
  unfold letters_R. revert ct.
  induction tokens as [|token tokens IH]; intros ct; simpl.
  { by rewrite Nat.add_0_r. }
  rewrite for_in_app, count_R_chars. simpl. rewrite IH.
  by rewrite filter_app, length_app, Nat.add_assoc.
Qed.
(** X1. Where ['V'] and ['U'] are nested lists of string tokens, the
    counter answers the number of tokens of ['V'] that hold a capital R
    plus the number of those of ['U']: the test is the substring test, so
    a token such as ['CRX-2'] counts like ['RY'], and the rows are read
    one after the other. *)
Theorem calculate_weights_counts_R_tokens config (rowsV rowsU : list (list string)) :
  config !! "V" = Some (grid rowsV) → config !! "U" = Some (grid rowsU) →
  __calculate_weights config
  = Ok (length (with_R (concat rowsV)) + length (with_R (concat rowsU))).
Proof.
  intros HV HU. unfold __calculate_weights, dict_getitem. rewrite HV, HU.
  cbn [mbind result_bind]. rewrite !list_chain_grid. cbn [mbind result_bind].
  rewrite count_R_tokens. cbn [mbind result_bind]. by rewrite count_R_tokens.
Qed.

(** X2. Where ['V'] and ['U'] are flat lists of strings, [chain] takes
    each string apart and the counter answers the number of capital
    letters R of ['V'] plus that of ['U']. *)
Theorem calculate_weights_flat_counts_letters config (tokensV tokensU : list string) :
  config !! "V" = Some (VList (VStr <$> tokensV)) →
  config !! "U" = Some (VList (VStr <$> tokensU)) →
  __calculate_weights config
  = Ok (length (letters_R tokensV) + length (letters_R tokensU)).
Proof.
  intros HV HU. unfold __calculate_weights, dict_getitem. rewrite HV, HU.
  cbn [mbind result_bind]. rewrite !list_chain_flat. cbn [mbind result_bind].
  rewrite count_R_letters. cbn [mbind result_bind]. by rewrite count_R_letters.
Qed.

(** X3. With ['V'] a nested list of string tokens and no ['U'], the
    counter raises [KeyError] for ['U'], after ['V'] has been read. *)
Theorem calculate_weights_without_U config (rowsV : list (list string)) :
  config !! "V" = Some (grid rowsV) → config !! "U" = None →
  __calculate_weights config = Raise (KeyError "U").
Proof.
  intros HV HU. unfold __calculate_weights, dict_getitem. rewrite HV, HU.
  cbn [mbind result_bind]. rewrite list_chain_grid. cbn [mbind result_bind].
  by rewrite count_R_tokens.
Qed.

(** X4. The counter reads the entries ['V'] and ['U'] and nothing else:
    two configurations that agree on both get the same answer or the same
    exception, whatever they hold under ['F'], ['M'] or any other key. *)
Theorem calculate_weights_reads_V_and_U_only config config' :
  config !! "V" = config' !! "V" → config !! "U" = config' !! "U" →
  __calculate_weights config = __calculate_weights config'.
Proof.
  intros HV HU. unfold __calculate_weights, dict_getitem. by rewrite HV, HU.
Qed.
End CounterOnLists.

Lemma calculate_weights_counts_R_tokens_witness :
  __calculate_weights
    (<["V" := grid [ ["RX"; "CRX-2"]; ["H"; "cnot-1"] ]]>
       (docstring_config (ndarray:=Empty_set)))
  = Ok (2 + 12).
Proof.
  apply (calculate_weights_counts_R_tokens _
           [ ["RX"; "CRX-2"]; ["H"; "cnot-1"] ]
           [ ["RY"; "CNOT-2"; "RY"; "RY"; "CNOT-2"; "RY"];
             ["RY"; "CNOT-3"; "RY"; "RY"; "CNOT-3"; "RY"];
             ["RY"; "CNOT-1"; "RY"; "RY"; "CNOT-1"; "RY"] ]); reflexivity.
Defined.

Lemma calculate_weights_flat_counts_letters_witness :
  __calculate_weights
    ({[ "V" := VList (VStr <$> ["RY"; "RR"]); "U" := VList (VStr <$> ["H"; "RZ"]) ]}
       : gmap string (value Empty_set))
  = Ok (3 + 1).
Proof.
  apply (calculate_weights_flat_counts_letters _ ["RY"; "RR"] ["H"; "RZ"]); reflexivity.
Defined.

Lemma calculate_weights_without_U_witness :
  __calculate_weights
    ({[ "V" := grid [ ["RY"; "H"] ]; "F" := grid [ ["H"] ] ]}
       : gmap string (value Empty_set))
  = Raise (KeyError "U").
Proof.
  apply (calculate_weights_without_U _ [ ["RY"; "H"] ]); reflexivity.
Defined.

Lemma calculate_weights_reads_V_and_U_only_witness :
  __calculate_weights (<["F" := grid [ ["RX"; "RZ"]; ["RY"; "RY"] ]]>
                         (rotation_in_F_config (ndarray:=Empty_set)))
  = __calculate_weights (rotation_in_F_config (ndarray:=Empty_set)).
Proof.
  apply calculate_weights_reads_V_and_U_only; reflexivity.
Defined.

(** ** The loops over the blocks *)

Section Blocks.
Context `{NumPy ndarray} {scalar device : Type}.
Variable accepts : operation scalar → bool.
Implicit Types (config : gmap string (value ndarray)) (q : list (operation scalar)).

(** With a second dimension to read, every round of the outer loop goes
    through; [r] stands for what reading [shape] gives. *)
Lemma block_loops_complete (r : result (list nat)) (shape : list nat) (cols : nat)
    (rows : list nat) q :
  r = Ok shape → shape !! 1 = Some cols →
  for_in (M:=tape (operation scalar)) rows tt (λ _ i,
    cols ← lift (r ≫= λ shape, tuple_getitem shape 1);
    for_in (seq 0 cols) tt (λ _ j, mret tt)) q = (q, Ok tt).
Proof.
  intros -> Hcols. induction rows as [|i rows IH]; [done|]. simpl.
  rewrite (tape_bind_Ok _ _ q q tt); [apply IH|].
  rewrite (tape_bind_Ok _ _ q q cols); [apply for_in_pass|].
  unfold lift, tuple_getitem. by rewrite Hcols.
Qed.

(** The loops over a block of a given shape. *)
Lemma block_loops_outcome (r : result (list nat)) (shape : list nat) (rows : nat) q :
  r = Ok shape → shape !! 0 = Some rows →
  for_in (M:=tape (operation scalar)) (seq 0 rows) tt (λ _ i,
    cols ← lift (r ≫= λ shape, tuple_getitem shape 1);
    for_in (seq 0 cols) tt (λ _ j, mret tt)) q = (q, loops_outcome shape).
Proof.
  intros Hr Hrows. destruct shape as [|rows' shape]; [done|].
  injection Hrows as ->. destruct rows as [|rows]; [done|].
  destruct shape as [|cols shape].
  - subst r. simpl. rewrite (tape_bind_Raise _ _ q q IndexError); [done|].
    by rewrite (tape_bind_Raise _ _ q q IndexError).
  - by apply (block_loops_complete r (S rows :: cols :: shape) cols).
Qed.

(** The loops over the block found under a key. *)
Lemma block_outcome (found : result (value ndarray)) q :
  (B ← lift found;
   rows ← lift (getattr_shape B ≫= λ shape, tuple_getitem shape 0);
   for_in (M:=tape (operation scalar)) (seq 0 rows) tt (λ _ i,
     cols ← lift (getattr_shape B ≫= λ shape, tuple_getitem shape 1);
     for_in (seq 0 cols) tt (λ _ j, mret tt))) q
  = (q, B ← found; shape ← getattr_shape B; loops_outcome shape).
Proof.
  destruct found as [B|e]; [rewrite (tape_bind_Ok _ _ q q B) by done
                           | by rewrite (tape_bind_Raise _ _ q q e)].
  cbn [mbind result_bind].
  destruct (getattr_shape B) as [shape|e];
    [| by rewrite (tape_bind_Raise _ _ q q e)].
  destruct (shape !! 0) as [rows|] eqn:Hrows.
  - rewrite (tape_bind_Ok _ _ q q rows);
      [by apply (block_loops_outcome (Ok shape) shape)|].
    unfold lift, tuple_getitem. cbn [mbind result_bind]. by rewrite Hrows.
  - rewrite (tape_bind_Raise _ _ q q IndexError).
    + by destruct shape.
    + unfold lift, tuple_getitem. cbn [mbind result_bind]. by rewrite Hrows.
Qed.

Lemma V_component_outcome config q :
  V_component (scalar:=scalar) config q
  = (q, V ← dict_getitem config "V"; shape ← getattr_shape V; loops_outcome shape).
Proof. apply block_outcome. Qed.

Lemma U_component_outcome config q :
  U_component (scalar:=scalar) config q
  = (q, U ← dict_getitem config "U"; shape ← getattr_shape U; loops_outcome shape).
Proof. apply block_outcome. Qed.

(** X5. The two nested loops over ['V'], and those over ['U'], queue
    nothing and come down to a test of the block's [shape]: they raise
    [KeyError] without the key, [AttributeError] on a value without
    [shape], [IndexError] on a shape of no dimension or of one dimension
    with at least one row, and go through otherwise, a shape of one
    dimension and no row included. *)
Theorem block_components_test_the_shape config q :
  V_component (scalar:=scalar) config q
  = (q, V ← dict_getitem config "V"; shape ← getattr_shape V; loops_outcome shape)
  ∧ U_component (scalar:=scalar) config q
    = (q, U ← dict_getitem config "U"; shape ← getattr_shape U; loops_outcome shape).
Proof. split; [apply V_component_outcome | apply U_component_outcome]. Qed.

(** A value that is not an array has no [shape]. *)
Lemma getattr_shape_not_array (v : value ndarray) :
  (∀ a, v ≠ VArray a) → getattr_shape v = Raise (AttributeError "shape").
Proof. intros Hv. destruct v; try done. by destruct (Hv a). Qed.

Lemma qnode_without_shape (dev : device) n_qubits config encoding
    (inputs weights : list scalar) (v : value ndarray) q emb :
  config !! "V" = Some v → (∀ a, v ≠ VArray a) →
  E_component accepts encoding n_qubits inputs q = (emb, Ok tt) →
  qnode accepts dev n_qubits config encoding inputs weights q
  = (emb, Raise (AttributeError "shape")).
Proof.
  intros HV Hv HE. unfold qnode. rewrite (tape_bind_Ok _ _ q emb tt) by done.
  rewrite (tape_bind_Raise _ _ emb emb (AttributeError "shape")); [done|].
  rewrite V_component_outcome. unfold dict_getitem. rewrite HV.
  cbn [mbind result_bind]. by rewrite getattr_shape_not_array.
Qed.

(** X6. When ['V'] is present and is not an array (a Python list as in
    the docstring, say), the circuit function raises [AttributeError] for
    [shape] once the embedding step is done, whatever the rest of the
    configuration. *)
Theorem qnode_block_without_shape (dev : device) n_qubits config encoding
    (inputs weights : list scalar) (v : value ndarray) q emb :
  config !! "V" = Some v → (∀ a, v ≠ VArray a) →
  E_component accepts encoding n_qubits inputs q = (emb, Ok tt) →
  qnode accepts dev n_qubits config encoding inputs weights q
  = (emb, Raise (AttributeError "shape")).
Proof. apply qnode_without_shape. Qed.
End Blocks.

Lemma qnode_block_without_shape_witness :
  qnode accept_all tt 3
    (<["V" := grid [ ["H"]; ["H"]; ["H"] ]]> (docstring_config (ndarray:=Empty_set)))
    "angle" [1; 2; 3]%Z [] []
  = ([AngleEmbedding [1; 2; 3]%Z [0; 1; 2]], Raise (AttributeError "shape")).
Proof.
  apply (qnode_block_without_shape accept_all tt 3 _ "angle" [1; 2; 3]%Z []
           (grid [ ["H"]; ["H"]; ["H"] ]) []); [reflexivity | done | reflexivity].
Defined.

(** X7. On a configuration made of Python values without any numpy
    array, the circuit function never completes: it raises what the
    embedding step raises, or else [KeyError] for a missing ['V'] or
    [AttributeError] for the [shape] of the ['V'] that is there. *)
Theorem qnode_never_completes_on_lists {scalar device : Type}
    (accepts : operation scalar → bool) (dev : device) (n_qubits : nat)
    (config : gmap string (value Empty_set)) (encoding : string)
    (inputs weights : list scalar) (q : list (operation scalar)) :
  qnode accepts dev n_qubits config encoding inputs weights q
  = match E_component accepts encoding n_qubits inputs q with
    | (emb, Ok _) =>
        (emb, Raise (match config !! "V" with
                     | Some _ => AttributeError "shape"
                     | None => KeyError "V"
                     end))
    | (emb, Raise e) => (emb, Raise e)
    end.
Proof.
  destruct (E_component accepts encoding n_qubits inputs q) as [emb [[]|e]] eqn:HE.
  - destruct (config !! "V") as [v|] eqn:HV.
    + apply (qnode_without_shape accepts dev n_qubits config encoding inputs weights v);
        [done | by intros [] | done].
    + by apply qnode_without_V.
  - unfold qnode. by rewrite (tape_bind_Raise _ _ q emb e).
Qed.

(** ** The measurement step on any mask *)

Section Masks.
Context `{NumPy ndarray} {scalar : Type}.
Implicit Types (config : gmap string (value ndarray)) (q : list (operation scalar)).

Lemma tape_for_in_app {X S} (xs ys : list X) (s : S)
    (body : S → X → tape (operation scalar) S) q :
  for_in (xs ++ ys) s body q = (s' ← for_in xs s body; for_in ys s' body) q.
Proof.
  revert s q. induction xs as [|x xs IH]; intros s q.
  { simpl. unfold mbind, tape_bind. done. }
  simpl. unfold mbind, tape_bind in *.
  destruct (body s x q) as [q' [s'|e]]; [apply IH | done].
Qed.

(** The loop from qubit [a] on, when the test of qubit [i] answers
    [bits[i]]. *)
Lemma M_loop_bits config (bits : list bool) (k a : nat) (acc : list (operation scalar)) q :
  (∀ i b, bits !! i = Some b →
     (dict_getitem config "M" ≫= λ M, getitem M i ≫= truth) = Ok b) →
  a + k ≤ length bits →
  for_in (M:=tape (operation scalar)) (seq a k) acc (λ measurements i,
    b ← lift (dict_getitem config "M" ≫= λ M, getitem M i ≫= truth);
    if b : bool
    then enqueue (expval (PauliZ i));; mret (measurements ++ [expval (PauliZ i)])
    else mret measurements) q
  = let new := (λ i, expval (PauliZ i)) <$> filter (λ i, bits !! i = Some true) (seq a k) in
    (q ++ new, Ok (acc ++ new)).
Proof.
  intros Hbits. revert a acc q. induction k as [|k IH]; intros a acc q Hlen; simpl.
  { by rewrite !app_nil_r. }
  destruct (lookup_lt_is_Some_2 bits a) as [b Hb]; [lia|].
  rewrite filter_cons.
  destruct b.
  - rewrite decide_True by done.
    rewrite (tape_bind_Ok _ _ q (q ++ [expval (PauliZ a)]) (acc ++ [expval (PauliZ a)])).
    + rewrite IH by lia. simpl. by rewrite <- !app_assoc.
    + rewrite (tape_bind_Ok _ _ q q true); [done|].
      unfold lift. by rewrite (Hbits a true).
  - rewrite decide_False by (rewrite Hb; done).
    rewrite (tape_bind_Ok _ _ q q acc).
    + by rewrite IH by lia.
    + rewrite (tape_bind_Ok _ _ q q false); [done|].
      unfold lift. by rewrite (Hbits a false).
Qed.

(** X8. With a mask that is a Python list of at least [n_qubits] items,
    each with a truth value (booleans, numbers, strings, [None], lists),
    the measurement step measures the qubits below [n_qubits] whose item
    is true in Python's sense, in ascending order; items from position
    [n_qubits] on are never read. *)
Theorem M_component_truth_of_items config (items : list (value ndarray))
    (bits : list bool) (n_qubits : nat) q :
  config !! "M" = Some (VList items) →
  Forall2 (λ v b, truth v = Ok b) (take n_qubits items) bits →
  n_qubits ≤ length items →
  let measurements := (λ i, expval (PauliZ i)) <$> selected bits n_qubits in
  M_component n_qubits config q = (q ++ measurements, Ok measurements).
Proof.
  intros HM Hbits Hlen. simpl. unfold M_component, selected.
  rewrite (M_loop_bits config bits); [done| |].
  - intros i b Hb. unfold dict_getitem. rewrite HM. cbn [mbind result_bind getitem].
    destruct (Forall2_lookup_r _ _ _ i b Hbits Hb) as (v & Hv & Htruth).
    apply lookup_take_Some in Hv as [Hv _].
    unfold tuple_getitem. by rewrite Hv.
  - apply Forall2_length in Hbits. rewrite length_take in Hbits. lia.
Qed.

(** X9. With a mask that is a list of fewer booleans than [n_qubits],
    the measurement step measures the selected qubits the mask covers
    and then raises [IndexError] at the first qubit beyond it. *)
Theorem M_component_short_mask config (mask : list bool) (n_qubits : nat) q :
  config !! "M" = Some (mask_list mask) → length mask < n_qubits →
  M_component n_qubits config q
  = (q ++ ((λ i, expval (PauliZ i)) <$> selected mask (length mask)), Raise IndexError).
Proof.
  intros HM Hlen. unfold M_component, selected.
  replace n_qubits with (length mask + S (n_qubits - S (length mask))) by lia.
  rewrite seq_app, tape_for_in_app.
  set (new := (λ i, expval (PauliZ i)) <$>
                filter (λ i, mask !! i = Some true) (seq 0 (length mask))).
  rewrite (tape_bind_Ok _ _ q (q ++ new) new).
  2:{ by rewrite (M_loop config mask) by (done || lia). }
  cbn [seq for_in].
  rewrite (tape_bind_Raise _ _ (q ++ new) (q ++ new) IndexError); [done|].
  rewrite (tape_bind_Raise _ _ (q ++ new) (q ++ new) IndexError); [done|].
  unfold lift, dict_getitem. rewrite HM. cbn [mbind result_bind mask_list getitem].
  unfold tuple_getitem. by rewrite list_lookup_fmap, lookup_ge_None_2 by (simpl; lia).
Qed.

(** X10. Without the key ['M'] the measurement step raises [KeyError]
    for ['M'] at the first qubit, with the queue untouched; with no qubit
    at all it answers the empty list and never looks for the key. *)
Theorem M_component_without_M config (n_qubits : nat) q :
  config !! "M" = None →
  M_component n_qubits config q
  = (q, match n_qubits with 0 => Ok [] | S _ => Raise (KeyError "M") end).
Proof.
  intros HM. destruct n_qubits as [|n]; [done|]. unfold M_component. cbn [seq for_in].
  rewrite (tape_bind_Raise _ _ q q (KeyError "M")); [done|].
  rewrite (tape_bind_Raise _ _ q q (KeyError "M")); [done|].
  unfold lift, dict_getitem. by rewrite HM.
Qed.

(** What a completed loop has measured: some of its qubits, in their
    order. *)
Lemma M_loop_measures_sublist config (qubits : list nat)
    (acc q q' ms : list (operation scalar)) :
  for_in (M:=tape (operation scalar)) qubits acc (λ measurements i,
    b ← lift (dict_getitem config "M" ≫= λ M, getitem M i ≫= truth);
    if b : bool
    then enqueue (expval (PauliZ i));; mret (measurements ++ [expval (PauliZ i)])
    else mret measurements) q = (q', Ok ms) →
  ∃ wires, wires `sublist_of` qubits
           ∧ ms = acc ++ ((λ i, expval (PauliZ i)) <$> wires)
           ∧ q' = q ++ ((λ i, expval (PauliZ i)) <$> wires).
Proof.
  revert q acc. induction qubits as [|i qubits IH]; intros q acc; simpl.
  { intros [= <- <-]. exists []. by rewrite !app_nil_r. }
  destruct (dict_getitem config "M" ≫= λ M, getitem M i ≫= truth) as [[]|e] eqn:Hb.
  - rewrite (tape_bind_Ok _ _ q (q ++ [expval (PauliZ i)]) (acc ++ [expval (PauliZ i)]))
      by (by rewrite (tape_bind_Ok _ _ q q true)).
    intros (wires & Hsub & -> & ->)%IH. exists (i :: wires).
    split; [by constructor|]. by rewrite fmap_cons, <- !app_assoc.
  - rewrite (tape_bind_Ok _ _ q q acc) by (by rewrite (tape_bind_Ok _ _ q q false)).
    intros (wires & Hsub & -> & ->)%IH. exists wires.
    split; [by constructor | done].
  - rewrite (tape_bind_Raise _ _ q q e) by (by rewrite (tape_bind_Raise _ _ q q e)).
    done.
Qed.

(** X11. Whatever the configuration holds under ['M'], a measurement
    step that completes has queued exactly the measurements it returns,
    and these are expectation values of [PauliZ] on qubits below
    [n_qubits], in ascending order without repetition. *)
Theorem M_component_completed config (n_qubits : nat) (q q' ms : list (operation scalar)) :
  M_component n_qubits config q = (q', Ok ms) →
  q' = q ++ ms
  ∧ ∃ wires, ms = (λ i, expval (PauliZ i)) <$> wires
             ∧ wires `sublist_of` seq 0 n_qubits
             ∧ StronglySorted lt wires
             ∧ length ms ≤ n_qubits.
Proof.
  unfold M_component. intros (wires & Hsub & -> & ->)%M_loop_measures_sublist.
  split; [done|]. exists wires. split; [done|]. split; [done|]. split.
  - pose proof (seq_ascending 0 n_qubits) as Hseq. clear -Hsub Hseq.
    induction Hsub as [|i l1 l2 Hsub IH|i l1 l2 Hsub IH]; [constructor| |].
    + apply StronglySorted_inv in Hseq as [Hl2 Hi]. constructor; [by apply IH|].
      rewrite Forall_forall in Hi. apply Forall_forall. intros j Hj. apply Hi.
      by eapply elem_of_sublist.
    + apply StronglySorted_inv in Hseq as [Hl2 _]. by apply IH.
  - simpl. rewrite length_fmap. apply sublist_length in Hsub.
    by rewrite length_seq in Hsub.
Qed.
End Masks.

Lemma M_component_truth_of_items_witness :
  M_component (scalar:=Z) 3
    ({[ "M" := VList [VInt 1; VNone; VStr "x"; VBool true] ]} : gmap string (value Empty_set))
    []
  = ([expval (PauliZ 0); expval (PauliZ 2)], Ok [expval (PauliZ 0); expval (PauliZ 2)]).
Proof.
  apply (M_component_truth_of_items _ [VInt 1; VNone; VStr "x"; VBool true]
           [true; false; true] 3 []).
  - reflexivity.
  - repeat constructor.
  - simpl. lia.
Defined.

Lemma M_component_short_mask_witness :
  M_component (scalar:=Z) 3
    (<["M" := mask_list [false; true]]> (docstring_config (ndarray:=Empty_set))) []
  = ([expval (PauliZ 1)], Raise IndexError).
Proof.
  apply (M_component_short_mask _ [false; true] 3 []); [reflexivity | simpl; lia].
Defined.

Lemma M_component_without_M_witness :
  M_component (scalar:=Z) 3 (delete "M" (docstring_config (ndarray:=Empty_set))) []
  = ([], Raise (KeyError "M")).
Proof. apply (M_component_without_M _ 3 []). reflexivity. Defined.

Lemma M_component_completed_witness :
  [expval (PauliZ 0); expval (PauliZ 1); expval (PauliZ 2)]
  = [] ++ [expval (scalar:=Z) (PauliZ 0); expval (PauliZ 1); expval (PauliZ 2)].
Proof.
  apply (M_component_completed (docstring_config (ndarray:=Empty_set)) 3 []).
  reflexivity.
Defined.

(** ** The checks and the embedding, case by case *)

(** X12. The four checks of the constructor pass exactly when the
    encoding is one of the two recognised ones and the configuration has
    the keys ['F'], ['U'] and ['M'], other keys and every value being
    free; in every other case they raise the [TypeError] of raising a
    string, the same for the four of them. *)
Theorem init_checks_pass_exactly {ndarray} (encoding : string)
    (config : gmap string (value ndarray)) :
  init_checks encoding config
  = if bool_decide (encoding ∈ ["angle"; "amplitude"]
                    ∧ "F" ∈ dom config ∧ "U" ∈ dom config ∧ "M" ∈ dom config)
    then Ok tt else Raise TypeError.
Proof.
  destruct (decide (encoding ∈ ["angle"; "amplitude"])) as [Henc|Henc].
  - rewrite init_checks_known_encoding by done.
    destruct (decide ("F" ∈ dom config ∧ "U" ∈ dom config ∧ "M" ∈ dom config)).
    + by rewrite !bool_decide_eq_true_2.
    + rewrite !bool_decide_eq_false_2; [done | tauto | done].
  - rewrite init_checks_unknown_encoding by done.
    rewrite bool_decide_eq_false_2; [done | tauto].
Qed.

Section EmbeddingCases.
Context `{NumPy ndarray} {scalar device : Type}.
Variable accepts : operation scalar → bool.
Implicit Types (config : gmap string (value ndarray)) (q : list (operation scalar)).

Lemma E_component_cases (encoding : string) (n_qubits : nat) (inputs : list scalar) q :
  E_component accepts encoding n_qubits inputs q
  = match expected_embedding encoding n_qubits inputs with
    | None => (q, Ok tt)
    | Some op => if accepts op then (q ++ [op], Ok tt) else (q, Raise ValueError)
    end.
Proof.
  unfold expected_embedding.
  destruct (decide (encoding = "angle")) as [->|Hangle].
  { destruct (accepts (AngleEmbedding inputs (seq 0 n_qubits))) eqn:Hacc;
      [by apply E_component_angle|].
    unfold E_component. cbn [decide]. simpl.
    rewrite (tape_bind_Raise _ _ q q ValueError); [done|].
    unfold template. by rewrite Hacc. }
  destruct (decide (encoding = "amplitude")) as [->|Hamplitude].
  { destruct (accepts (AmplitudeEmbedding inputs (seq 0 n_qubits) true)) eqn:Hacc;
      [by apply E_component_amplitude|].
    unfold E_component. simpl.
    rewrite (tape_bind_Ok _ _ q q tt) by done.
    unfold template. by rewrite Hacc. }
  unfold E_component. rewrite !decide_False by done.
  by rewrite (tape_bind_Ok _ _ q q tt).
Qed.

(** X13. The embedding step queues at most one operation: the embedding
    of a recognised encoding when the library accepts it; it raises the
    library's [ValueError] with the queue untouched when the library
    refuses it; and with any other encoding it queues nothing and raises
    nothing, so that the run goes on without an embedding. *)
Theorem E_component_by_cases (encoding : string) (n_qubits : nat) (inputs : list scalar) q :
  E_component accepts encoding n_qubits inputs q
  = match expected_embedding encoding n_qubits inputs with
    | None => (q, Ok tt)
    | Some op => if accepts op then (q ++ [op], Ok tt) else (q, Raise ValueError)
    end.
Proof. apply E_component_cases. Qed.

(** X14. The circuit function reads the entries ['V'], ['U'] and ['M']
    of the configuration and no other: on two configurations that agree
    on the three it leaves the same queue with the same answer or
    exception, whatever they hold under ['F']. *)
Theorem qnode_reads_V_U_M_only (dev : device) (n_qubits : nat) config config'
    (encoding : string) (inputs weights : list scalar) q :
  config !! "V" = config' !! "V" → config !! "U" = config' !! "U" →
  config !! "M" = config' !! "M" →
  qnode accepts dev n_qubits config encoding inputs weights q
  = qnode accepts dev n_qubits config' encoding inputs weights q.
Proof.
  intros HV HU HM.
  unfold qnode, V_component, U_component, M_component, dict_getitem.
  by rewrite HV, HU, HM.
Qed.

Lemma M_loop_queue_bound config (qubits : list nat) (acc q : list (operation scalar)) :
  length (for_in (M:=tape (operation scalar)) qubits acc (λ measurements i,
    b ← lift (dict_getitem config "M" ≫= λ M, getitem M i ≫= truth);
    if b : bool
    then enqueue (expval (PauliZ i));; mret (measurements ++ [expval (PauliZ i)])
    else mret measurements) q).1 ≤ length q + length qubits.
Proof.
  destruct (M_loop_extends_queue config qubits acc q) as (later & r & Hloop).
  revert acc q later r Hloop.
  induction qubits as [|i qubits IH]; intros acc q later r; simpl.
  { intros [= Hq _]. simpl. lia. }
  destruct (dict_getitem config "M" ≫= λ M, getitem M i ≫= truth) as [[]|e] eqn:Hb.
  - rewrite (tape_bind_Ok _ _ q (q ++ [expval (PauliZ i)]) (acc ++ [expval (PauliZ i)]))
      by (by rewrite (tape_bind_Ok _ _ q q true)).
    intros Hloop.
    destruct (M_loop_extends_queue config qubits (acc ++ [expval (PauliZ i)])
                (q ++ [expval (PauliZ i)])) as (later' & r' & Hrest).
    specialize (IH _ _ _ _ Hrest). rewrite length_app in IH. simpl in IH. lia.
  - rewrite (tape_bind_Ok _ _ q q acc) by (by rewrite (tape_bind_Ok _ _ q q false)).
    intros Hloop.
    destruct (M_loop_extends_queue config qubits acc q) as (later' & r' & Hrest).
    specialize (IH _ _ _ _ Hrest). lia.
  - rewrite (tape_bind_Raise _ _ q q e) by (by rewrite (tape_bind_Raise _ _ q q e)).
    simpl. lia.
Qed.

(** X15. Whatever the configuration, the encoding and the library's
    answer, a run of the circuit function adds at most one operation per
    qubit and one more to the queue, whether it completes or raises. *)
Theorem qnode_queue_bound (dev : device) (n_qubits : nat) config (encoding : string)
    (inputs weights : list scalar) q :
  length (qnode accepts dev n_qubits config encoding inputs weights q).1
  ≤ length q + 1 + n_qubits.
Proof.
  unfold qnode.
  assert (HE : length (E_component accepts encoding n_qubits inputs q).1 ≤ length q + 1).
  { rewrite E_component_cases.
    destruct (expected_embedding encoding n_qubits inputs) as [op|]; [|simpl; lia].
    destruct (accepts op); simpl; [rewrite length_app; simpl; lia | lia]. }
  destruct (E_component accepts encoding n_qubits inputs q) as [qE [[]|e]] eqn:HEq;
    simpl in HE.
  2:{ rewrite (tape_bind_Raise _ _ q qE e) by done. simpl. lia. }
  rewrite (tape_bind_Ok _ _ q qE tt) by done.
  pose proof (V_component_queue (scalar:=scalar) config qE) as HV.
  destruct (V_component config qE) as [qV [[]|e]] eqn:HVq; simpl in HV; subst qV.
  2:{ rewrite (tape_bind_Raise _ _ qE qE e) by done. simpl. lia. }
  rewrite (tape_bind_Ok _ _ qE qE tt) by done.
  pose proof (U_component_queue (scalar:=scalar) config qE) as HU.
  destruct (U_component config qE) as [qU [[]|e]] eqn:HUq; simpl in HU; subst qU.
  2:{ rewrite (tape_bind_Raise _ _ qE qE e) by done. simpl. lia. }
  rewrite (tape_bind_Ok _ _ qE qE tt) by done.
  unfold M_component.
  pose proof (M_loop_queue_bound config (seq 0 n_qubits) [] qE) as HM.
  rewrite length_seq in HM. lia.
Qed.
End EmbeddingCases.

Lemma qnode_reads_V_U_M_only_witness :
  qnode accept_all tt 3
    (<["F" := grid [ ["RX"] ]]> (docstring_config (ndarray:=Empty_set)))
    "angle" [1; 2; 3]%Z [] []
  = qnode accept_all tt 3 (docstring_config (ndarray:=Empty_set)) "angle" [1; 2; 3]%Z [] [].
Proof.
  apply qnode_reads_V_U_M_only; reflexivity.
Defined.

(** ** A token that is not a string *)

Section BadToken.
Context `{NumPy ndarray}.
Implicit Types (config : gmap string (value ndarray)).

Lemma mapM_iterate_lists (rows : list (list (value ndarray))) :
  mapM iterate (VList <$> rows) = Ok rows.
Proof.
  induction rows as [|row rows IH]; [done|].
  rewrite fmap_cons. cbn. cbn in IH. by rewrite IH.
Qed.

Lemma count_R_stops (before : list string) (bad : value ndarray)
    (after : list (value ndarray)) (ct : nat) :
  contains "R" bad = Raise TypeError →
  for_in ((VStr <$> before) ++ bad :: after) ct count_R = Raise TypeError.
Proof.
  intros Hbad. rewrite for_in_app, count_R_tokens. cbn [mbind result_bind].
  rewrite for_in_cons.
  assert (Hstop : count_R (ct + length (with_R before)) bad = Raise TypeError).
  { unfold count_R. by rewrite Hbad. }
  by rewrite Hstop.
Qed.

(** X16. Where ['V'] is a list of rows that are lists, and the first
    token that is not a string is [None], a boolean or a number, the
    counter raises [TypeError] at that token, whatever follows it and
    whatever ['U'] holds. *)
Theorem calculate_weights_bad_token config (rows : list (list (value ndarray)))
    (before : list string) (bad : value ndarray) (after : list (value ndarray)) :
  config !! "V" = Some (VList (VList <$> rows)) →
  concat rows = (VStr <$> before) ++ bad :: after →
  bad = VNone ∨ (∃ b, bad = VBool b) ∨ (∃ z, bad = VInt z) →
  __calculate_weights config = Raise TypeError.
Proof.
  intros HV Hrows Hbad. unfold __calculate_weights, dict_getitem. rewrite HV.
  cbn [mbind result_bind]. unfold list_chain. cbn [iterate mbind result_bind].
  rewrite mapM_iterate_lists. cbn [mbind result_bind]. rewrite Hrows.
  rewrite count_R_stops; [done|].
  by destruct Hbad as [->|[[b ->]|[z ->]]].
Qed.
End BadToken.

Lemma calculate_weights_bad_token_witness :
  __calculate_weights
    ({[ "V" := VList [ VList [VStr "RY"; VNone; VStr "H"]; VList [VStr "RX"] ];
        "U" := grid [ ["RY"] ] ]} : gmap string (value Empty_set))
  = Raise TypeError.
Proof.
  apply (calculate_weights_bad_token _
           [ [VStr "RY"; VNone; VStr "H"]; [VStr "RX"] ]
           ["RY"] VNone [VStr "H"; VStr "RX"]);
    [reflexivity | reflexivity | by left].
Defined.
